(** * AdminUsersPage: the user administration view

    A shallow embedding of [src/pages/AdminUsersPage.tsx]: the component's
    state cells, the filter effect, the fetch effect, the two mutation
    handlers and the render function, followed by the properties of the
    page's observable contract. *)

From Stdlib Require Import String Ascii List Bool Arith Lia.
Import ListNotations.
Local Open Scope string_scope.
Local Open Scope list_scope.

(** ** Strings

    A JavaScript string is a finite sequence of code units; [string] plays
    that role.  [===] on strings is [String.eqb], [+] is [append]. *)

(** [String.prototype.startsWith], used to define [includes]. *)
Fixpoint startsWith (s p : string) : bool :=
  match p, s with
  | EmptyString, _ => true
  | String _ _, EmptyString => false
  | String b p', String a s' => Ascii.eqb a b && startsWith s' p'
  end.

(** [String.prototype.includes]: [p] occurs in [s] at some position. *)
Fixpoint includes (s p : string) : bool :=
  startsWith s p ||
  match s with
  | EmptyString => false
  | String _ s' => includes s' p
  end.

(** [toLowerCase] is a builtin of the host: the development is parametric
    in it.  The one law used is that the empty string has no letter to
    fold. *)
Class CaseMapping : Type := {
  toLowerCase : string -> string;
  toLowerCase_empty : toLowerCase "" = ""
}.

(** The builtin restricted to the ASCII letters: [A]..[Z] are mapped to
    [a]..[z], every other code unit is kept. *)
Definition lowerAscii (c : ascii) : ascii :=
  let n := nat_of_ascii c in
  if ((65 <=? n) && (n <=? 90))%nat then ascii_of_nat (n + 32) else c.

Fixpoint lowerString (s : string) : string :=
  match s with
  | EmptyString => EmptyString
  | String c s' => String (lowerAscii c) (lowerString s')
  end.

#[export] Instance AsciiCase : CaseMapping := {
  toLowerCase := lowerString;
  toLowerCase_empty := eq_refl
}.

(** ** Data model *)

(** Modelled from the spec: the declaration of [UserType] (and of
    [UserRole]) lives in [../types], which is not part of the sources at
    hand.  The fields are the ones the page reads: [id], [username],
    [email], [role] and [created_at].  At run time a role is a string (it
    is compared with the role filter, a string, and the draft starts with
    the empty role). *)
Record User : Type := mkUser {
  id : string;
  username : string;
  email : string;
  role : string;
  created_at : string
}.

(** The object held by [editForm]. *)
Record EditForm : Type := mkEditForm {
  form_username : string;
  form_email : string;
  form_role : string
}.

(** The spread [{ ...user, ...editForm }]: the draft's three keys replace
    the record's, every other key of the record is kept. *)
Definition spread (user : User) (editForm : EditForm) : User :=
  {| id := id user;
     username := form_username editForm;
     email := form_email editForm;
     role := form_role editForm;
     created_at := created_at user |}.

(** The error objects of the service client carry a [message]. *)
Record ApiError : Type := mkApiError { message : string }.

(** ** The filter predicate *)

Section Filter.
Context `{CaseMapping}.

Definition matchesSearch (searchTerm : string) (user : User) : bool :=
  includes (toLowerCase (username user)) (toLowerCase searchTerm) ||
  includes (toLowerCase (email user)) (toLowerCase searchTerm).

Definition matchesRole (filterRole : string) (user : User) : bool :=
  (filterRole =? "") || (role user =? filterRole).

Definition matchesStatus (filterStatus : string) : bool :=
  (filterStatus =? "") || (filterStatus =? "active").

(** The callback given to [users.filter] in the filter effect. *)
Definition matches (searchTerm filterRole filterStatus : string)
    (user : User) : bool :=
  matchesSearch searchTerm user && matchesRole filterRole user &&
  matchesStatus filterStatus.

(** The constant [filtered] of the filter effect. *)
Definition filtered (users : list User)
    (searchTerm filterRole filterStatus : string) : list User :=
  filter (matches searchTerm filterRole filterStatus) users.

End Filter.

(** ** Component state: one field per [useState] cell *)

Record State : Type := mkState {
  users : list User;
  filteredUsers : list User;
  searchTerm : string;
  filterRole : string;
  filterStatus : string;
  isLoading : bool;
  showFilters : bool;
  error : option string;
  isModalOpen : bool;
  selectedUser : option User;
  editForm : EditForm
}.

(** The values given to [useState] on the first render. *)
Definition initialState : State :=
  {| users := [];
     filteredUsers := [];
     searchTerm := "";
     filterRole := "";
     filterStatus := "";
     isLoading := true;
     showFilters := false;
     error := None;
     isModalOpen := false;
     selectedUser := None;
     editForm := mkEditForm "" "" "" |}.

(** The setters replace one cell and keep the others. *)
Definition setUsers (v : list User) (s : State) : State :=
  mkState v (filteredUsers s) (searchTerm s) (filterRole s) (filterStatus s)
    (isLoading s) (showFilters s) (error s) (isModalOpen s) (selectedUser s)
    (editForm s).

Definition setFilteredUsers (v : list User) (s : State) : State :=
  mkState (users s) v (searchTerm s) (filterRole s) (filterStatus s)
    (isLoading s) (showFilters s) (error s) (isModalOpen s) (selectedUser s)
    (editForm s).

Definition setSearchTerm (v : string) (s : State) : State :=
  mkState (users s) (filteredUsers s) v (filterRole s) (filterStatus s)
    (isLoading s) (showFilters s) (error s) (isModalOpen s) (selectedUser s)
    (editForm s).

Definition setFilterRole (v : string) (s : State) : State :=
  mkState (users s) (filteredUsers s) (searchTerm s) v (filterStatus s)
    (isLoading s) (showFilters s) (error s) (isModalOpen s) (selectedUser s)
    (editForm s).

Definition setFilterStatus (v : string) (s : State) : State :=
  mkState (users s) (filteredUsers s) (searchTerm s) (filterRole s) v
    (isLoading s) (showFilters s) (error s) (isModalOpen s) (selectedUser s)
    (editForm s).

Definition setIsLoading (v : bool) (s : State) : State :=
  mkState (users s) (filteredUsers s) (searchTerm s) (filterRole s)
    (filterStatus s) v (showFilters s) (error s) (isModalOpen s)
    (selectedUser s) (editForm s).

Definition setShowFilters (v : bool) (s : State) : State :=
  mkState (users s) (filteredUsers s) (searchTerm s) (filterRole s)
    (filterStatus s) (isLoading s) v (error s) (isModalOpen s)
    (selectedUser s) (editForm s).

Definition setError (v : option string) (s : State) : State :=
  mkState (users s) (filteredUsers s) (searchTerm s) (filterRole s)
    (filterStatus s) (isLoading s) (showFilters s) v (isModalOpen s)
    (selectedUser s) (editForm s).

Definition setIsModalOpen (v : bool) (s : State) : State :=
  mkState (users s) (filteredUsers s) (searchTerm s) (filterRole s)
    (filterStatus s) (isLoading s) (showFilters s) (error s) v
    (selectedUser s) (editForm s).

Definition setSelectedUser (v : option User) (s : State) : State :=
  mkState (users s) (filteredUsers s) (searchTerm s) (filterRole s)
    (filterStatus s) (isLoading s) (showFilters s) (error s) (isModalOpen s)
    v (editForm s).

Definition setEditForm (v : EditForm) (s : State) : State :=
  mkState (users s) (filteredUsers s) (searchTerm s) (filterRole s)
    (filterStatus s) (isLoading s) (showFilters s) (error s) (isModalOpen s)
    (selectedUser s) v.

(** The second effect, with dependencies
    [[users, searchTerm, filterRole, filterStatus]]: it stores the filtered
    projection of the list held by the render that scheduled it. *)
Definition filterEffect `{CaseMapping} (s : State) : State :=
  setFilteredUsers
    (filtered (users s) (searchTerm s) (filterRole s) (filterStatus s)) s.

(** ** The external service

    The page talks to the service through five requests and to the
    browser through [window.confirm].  What they answer is not decided by
    the page: a [Service] fixes the answers, and the theorems quantify over
    it.  Every request a handler awaits is recorded, in order. *)

(** The object [{ data, error }] a query resolves to. *)
Record FetchResponse : Type := mkFetchResponse {
  data : option (list User);
  fetch_error : option ApiError
}.

Inductive Request : Type :=
| SelectUsers
    (* from('users').select('*').order('created_at', { ascending: false }) *)
| AuthUpdateUserById (uid new_email new_username : string)
| UsersUpdate (uid : string) (fields : EditForm)
| AuthDeleteUser (uid : string)
| UsersDelete (uid : string).

Record Service : Type := mkService {
  select_users : FetchResponse;
  auth_updateUserById : string -> string -> string -> option ApiError;
  users_update : string -> EditForm -> option ApiError;
  auth_deleteUser : string -> option ApiError;
  users_delete : string -> option ApiError;
  window_confirm : string -> bool
}.

(** What a handler acts on: the state cells and the requests sent so far. *)
Record World : Type := mkWorld {
  cells : State;
  sent : list Request
}.

(** ** Handlers as computations

    A handler either completes or throws; in both cases the cells written
    before stay written. *)
Inductive Completion (A : Type) : Type :=
| Normal (a : A)
| Thrown (e : ApiError).
Arguments Normal {A} a.
Arguments Thrown {A} e.

Definition Action (A : Type) : Type := Service -> World -> Completion A * World.

Definition ret {A : Type} (a : A) : Action A :=
  fun _ w => (Normal a, w).

Definition bind {A B : Type} (c : Action A) (k : A -> Action B) : Action B :=
  fun svc w =>
    match c svc w with
    | (Normal a, w') => k a svc w'
    | (Thrown e, w') => (Thrown e, w')
    end.

Definition throw {A : Type} (e : ApiError) : Action A :=
  fun _ w => (Thrown e, w).

(** [try { body } catch (error) { handler error }] *)
Definition tryCatch {A : Type} (body : Action A) (handler : ApiError -> Action A)
    : Action A :=
  fun svc w =>
    match body svc w with
    | (Normal a, w') => (Normal a, w')
    | (Thrown e, w') => handler e svc w'
    end.

(** [try { body } finally { final }] *)
Definition tryFinally {A : Type} (body : Action A) (final : Action unit)
    : Action A :=
  fun svc w =>
    match body svc w with
    | (r, w') =>
        match final svc w' with
        | (Normal _, w'') => (r, w'')
        | (Thrown e, w'') => (Thrown e, w'')
        end
    end.

(** A call of a state setter. *)
Definition set (f : State -> State) : Action unit :=
  fun _ w => (Normal tt, mkWorld (f (cells w)) (sent w)).

(** An awaited request: it is recorded and the service's answer returned. *)
Definition await {A : Type} (r : Request) (answer : Service -> A) : Action A :=
  fun svc w => (Normal (answer svc), mkWorld (cells w) (sent w ++ [r])).

(** [window.confirm(msg)], answered by the user. *)
Definition confirm (msg : string) : Action bool :=
  fun svc w => (Normal (window_confirm svc msg), w).

(** [if (err) throw err;] *)
Definition throwIf (err : option ApiError) : Action unit :=
  match err with
  | Some e => throw e
  | None => ret tt
  end.

Declare Scope action_scope.
Delimit Scope action_scope with action.
Notation "x <- c ;; k" := (bind c (fun x => k))
  (at level 61, c at next level, right associativity) : action_scope.
Notation "c ;; k" := (bind c (fun _ => k))
  (at level 61, right associativity) : action_scope.
Local Open Scope action_scope.

(** Runs a handler from the cells [s]: the cells and the requests at its
    end. *)
Definition exec (a : Action unit) (svc : Service) (s : State) : World :=
  snd (a svc (mkWorld s [])).

(** ** The fetch effect *)

Definition fetchFailedMessage : string :=
  "Не удалось загрузить пользователей. Проверьте подключение к интернету.".

(** [fetchUsers], run once by the first effect.  The [console.error] of the
    catch block writes no cell and is left out. *)
Definition fetchUsers : Action unit :=
  set (setIsLoading true) ;;
  set (setError None) ;;
  tryFinally
    (tryCatch
       (r <- await SelectUsers select_users ;;
        throwIf (fetch_error r) ;;
        match data r with
        | Some d => set (setUsers d) ;; set (setFilteredUsers d)
        | None => ret tt
        end)
       (fun _ => set (setError (Some fetchFailedMessage))))
    (set (setIsLoading false)).

(** ** The edit modal *)

Definition openEditModal (user : User) : Action unit :=
  set (setSelectedUser (Some user)) ;;
  set (setEditForm (mkEditForm (username user) (email user) (role user))) ;;
  set (setIsModalOpen true).

Definition updateFailedPrefix : string :=
  "Ошибка при обновлении пользователя: ".

(** [handleSaveChanges], created by the render that holds the cells
    [view]: [selectedUser], [editForm] and [users] are read from that
    render. *)
Definition handleSaveChanges (view : State) : Action unit :=
  match selectedUser view with
  | None => ret tt
  | Some selected =>
      let form := editForm view in
      tryCatch
        (authError <-
           await
             (AuthUpdateUserById (id selected) (form_email form)
                (form_username form))
             (fun svc =>
                auth_updateUserById svc (id selected) (form_email form)
                  (form_username form)) ;;
         throwIf authError ;;
         dbError <-
           await (UsersUpdate (id selected) form)
             (fun svc => users_update svc (id selected) form) ;;
         throwIf dbError ;;
         let updatedUsers :=
           map (fun user =>
                  if id user =? id selected then spread user form else user)
               (users view) in
         set (setUsers updatedUsers) ;;
         set (setIsModalOpen false))
        (fun error =>
           set (setError (Some (updateFailedPrefix ++ message error)%string)))
  end.

(** ** Deletion *)

Definition confirmDeleteQuestion : string :=
  "Вы уверены, что хотите удалить этого пользователя?".

Definition deleteFailedPrefix : string :=
  "Ошибка при удалении пользователя: ".

(** [deleteUser], created by the render that holds the cells [view]. *)
Definition deleteUser (view : State) (user : User) : Action unit :=
  ok <- confirm confirmDeleteQuestion ;;
  if negb ok then ret tt
  else
    tryCatch
      (authError <-
         await (AuthDeleteUser (id user))
           (fun svc => auth_deleteUser svc (id user)) ;;
       throwIf authError ;;
       dbError <-
         await (UsersDelete (id user)) (fun svc => users_delete svc (id user)) ;;
       throwIf dbError ;;
       set (setUsers (filter (fun u => negb (id u =? id user)) (users view))))
      (fun error =>
         set (setError (Some (deleteFailedPrefix ++ message error)%string))).

(** ** Rendering *)

Definition getRoleName (role : string) : string :=
  if role =? "admin" then "Администратор"
  else if role =? "moderator" then "Модератор"
  else if role =? "user" then "Пользователь"
  else "Неизвестно".

Definition getRoleColor (role : string) : string :=
  if role =? "admin" then "bg-red-100 text-red-800"
  else if role =? "moderator" then "bg-purple-100 text-purple-800"
  else if role =? "user" then "bg-blue-100 text-blue-800"
  else "bg-gray-100 text-gray-800".

(** A table row: the record it shows and acts on, and its role badge.  The
    date cell is the record's [created_at] passed through the host's
    [toLocaleDateString]. *)
Record Row : Type := mkRow {
  row_user : User;
  badge_text : string;
  badge_color : string
}.

Definition renderRow (user : User) : Row :=
  mkRow user (getRoleName (role user)) (getRoleColor (role user)).

(** The region under the search bar. *)
Inductive Content : Type :=
| LoadingIndicator
| NoUsersFound
| Table (rows : list Row).

(** What the page shows inside [Layout]. *)
Record Page : Type := mkPage {
  banner : option string;
  searchBox : string;
  filterPanel : option (string * string);
  content : Content;
  modal : option (User * EditForm)
}.

Inductive Element : Type :=
| Navigate (to : string)
| Layout (page : Page).

Inductive Effect : Type :=
| FetchUsersOnMount
| FilterOnChange.

Definition renderPage (s : State) : Page :=
  {| banner := error s;
     searchBox := searchTerm s;
     filterPanel :=
       if showFilters s then Some (filterRole s, filterStatus s) else None;
     content :=
       if isLoading s then LoadingIndicator
       else if (length (filteredUsers s) =? 0)%nat then NoUsersFound
       else Table (map renderRow (filteredUsers s));
     modal :=
       match selectedUser s with
       | Some selected =>
           if isModalOpen s then Some (selected, editForm s) else None
       | None => None
       end |}.

(** The component function: the element returned and the effects the
    render registers.  [user] is the session's user, read from the auth
    store.  The access check returns before the two [useEffect] calls. *)
Definition AdminUsersPage (user : option User) (s : State)
    : Element * list Effect :=
  if match user with
     | None => true
     | Some u => negb (role u =? "admin")
     end
  then (Navigate "/", [])
  else (Layout (renderPage s), [FetchUsersOnMount; FilterOnChange]).

(** ** The handlers written inline in the markup

    Each one is created by the render that holds the cells [view] when it
    reads a cell. *)

(** [onChange] of the search box: [setSearchTerm(e.target.value)]. *)
Definition onSearchChange (value : string) : Action unit :=
  set (setSearchTerm value).

(** [onClick] of the filters button: [setShowFilters(!showFilters)]. *)
Definition toggleFilters (view : State) : Action unit :=
  set (setShowFilters (negb (showFilters view))).

(** [onChange] of the role select. *)
Definition onFilterRoleChange (value : string) : Action unit :=
  set (setFilterRole value).

(** [onChange] of the status select. *)
Definition onFilterStatusChange (value : string) : Action unit :=
  set (setFilterStatus value).

(** [onClick] of the reset button. *)
Definition resetFilters : Action unit :=
  set (setFilterRole "") ;;
  set (setFilterStatus "").

(** [onChange] of the modal's name input:
    [setEditForm({...editForm, username: e.target.value})]. *)
Definition onUsernameChange (view : State) (value : string) : Action unit :=
  set (setEditForm
         (mkEditForm value (form_email (editForm view))
            (form_role (editForm view)))).

(** [onChange] of the modal's email input. *)
Definition onEmailChange (view : State) (value : string) : Action unit :=
  set (setEditForm
         (mkEditForm (form_username (editForm view)) value
            (form_role (editForm view)))).

(** [onChange] of the modal's role select. *)
Definition onRoleChange (view : State) (value : string) : Action unit :=
  set (setEditForm
         (mkEditForm (form_username (editForm view))
            (form_email (editForm view)) value)).

(** [onClick] of the modal's cancel button. *)
Definition cancelEdit : Action unit :=
  set (setIsModalOpen false).

(** ** Life cycle

    After a handler has written cells the component renders again and the
    filter effect runs on the new cells. *)
Definition dispatch `{CaseMapping} (handler : State -> Action unit)
    (svc : Service) (s : State) : State :=
  filterEffect (cells (exec (handler s) svc s)).

(** Mounting: both effects run on the first render, then the awaited
    query of [fetchUsers] resolves and the filter effect follows. *)
Definition mount `{CaseMapping} (svc : Service) : State :=
  filterEffect (cells (exec fetchUsers svc (filterEffect initialState))).

(** ** Sample data

    The two records of the scenario: alice, an administrator, and bob, a
    plain user, in the order the query returns them (newest first). *)

Definition alice : User :=
  mkUser "u-1" "Alice" "alice@example.org" "admin" "2024-02-01T10:00:00Z".

Definition bob : User :=
  mkUser "u-2" "bob" "Bob@Example.org" "user" "2024-01-15T09:30:00Z".

(** A service that answers every request without an error and a user who
    confirms. *)
Definition healthy : Service :=
  {| select_users := mkFetchResponse (Some [alice; bob]) None;
     auth_updateUserById := fun _ _ _ => None;
     users_update := fun _ _ => None;
     auth_deleteUser := fun _ => None;
     users_delete := fun _ => None;
     window_confirm := fun _ => true |}.

Definition requestTimeout : ApiError := mkApiError "upstream request requestTimeout".

(** A service whose identity store refuses every request; its query
    answers with an error next to a part of the rows. *)
Definition identityDown : Service :=
  {| select_users := mkFetchResponse (Some [alice]) (Some requestTimeout);
     auth_updateUserById := fun _ _ _ => Some requestTimeout;
     users_update := fun _ _ => None;
     auth_deleteUser := fun _ => Some requestTimeout;
     users_delete := fun _ => None;
     window_confirm := fun _ => true |}.

(** A service whose profile store refuses every write. *)
Definition profileDown : Service :=
  {| select_users := mkFetchResponse (Some [alice; bob]) None;
     auth_updateUserById := fun _ _ _ => None;
     users_update := fun _ _ => Some requestTimeout;
     auth_deleteUser := fun _ => None;
     users_delete := fun _ => Some requestTimeout;
     window_confirm := fun _ => true |}.

(** The cells once the page has loaded from [healthy]. *)
Definition loaded : State := mount healthy.

(** The cells while bob is edited, the draft's role changed to moderator. *)
Definition editingBob : State :=
  setEditForm (mkEditForm "bob" "Bob@Example.org" "moderator")
    (cells (exec (openEditModal bob) healthy loaded)).

(** A second row that carries alice's id, and a service whose query
    returns it next to alice and bob. *)
Definition aliceTwin : User :=
  mkUser "u-1" "alice2" "alice2@example.org" "user" "2023-12-24T08:00:00Z".

Definition repeatedIds : Service :=
  {| select_users := mkFetchResponse (Some [alice; bob; aliceTwin]) None;
     auth_updateUserById := fun _ _ _ => None;
     users_update := fun _ _ => None;
     auth_deleteUser := fun _ => None;
     users_delete := fun _ => None;
     window_confirm := fun _ => true |}.

(** The cells once the page has loaded from [repeatedIds]. *)
Definition loadedRepeated : State := mount repeatedIds.

(** A service that answers without an error and a user who declines the
    confirmation. *)
Definition declining : Service :=
  {| select_users := mkFetchResponse (Some [alice; bob]) None;
     auth_updateUserById := fun _ _ _ => None;
     users_update := fun _ _ => None;
     auth_deleteUser := fun _ => None;
     users_delete := fun _ => None;
     window_confirm := fun _ => false |}.

(** The cells once the role filter has been set to user on the loaded
    page. *)
Definition plainUsersOnly : State :=
  dispatch (fun _ => onFilterRoleChange "user") healthy loaded.

(** The cells after the edit button of bob's row has been pressed on the
    loaded page, and after the role moderator has been chosen in the
    modal. *)
Definition openedBob : State := cells (exec (openEditModal bob) healthy loaded).

Definition chosenModerator : State :=
  cells (exec (onRoleChange openedBob "moderator") healthy openedBob).

(** ** Notions used by the statements *)

(** [p] occurs in [s]: some code units, then [p], then the rest. *)
Definition Contains (s p : string) : Prop :=
  exists before after : string, s = (before ++ p ++ after)%string.

(** [p] occurs in [s] once the case of both is folded. *)
Definition ContainsIgnoringCase `{CaseMapping} (s p : string) : Prop :=
  Contains (toLowerCase s) (toLowerCase p).

(** [l1] is obtained from [l2] by dropping entries: nothing is added,
    repeated or moved. *)
Inductive Subsequence {A : Type} : list A -> list A -> Prop :=
| Subsequence_nil : Subsequence [] []
| Subsequence_keep x l1 l2 : Subsequence l1 l2 -> Subsequence (x :: l1) (x :: l2)
| Subsequence_drop x l1 l2 : Subsequence l1 l2 -> Subsequence l1 (x :: l2).

Definition User_eq_dec (u v : User) : {u = v} + {u <> v}.
Proof. decide equality; apply string_dec. Defined.

(** The identifiers of a list of records, in order. *)
Definition ids (l : list User) : list string := map id l.

(** ** Strings: [includes] decides [Contains] *)

Lemma startsWith_spec (s p : string) :
  startsWith s p = true <-> exists rest : string, s = (p ++ rest)%string.
Proof.
  revert s; induction p as [|b p IH]; intros s.
  - split; [intros _; exists s; reflexivity | destruct s; reflexivity].
  - destruct s as [|a s]; simpl.
    + split; [discriminate | intros [rest E]; discriminate].
    + rewrite andb_true_iff, Ascii.eqb_eq, IH. split.
      * intros [-> [rest ->]]. exists rest; reflexivity.
      * intros [rest E]. injection E as -> ->. split; [reflexivity | eauto].
Qed.

Lemma includes_spec (s p : string) : includes s p = true <-> Contains s p.
Proof.
  unfold Contains. induction s as [|a s IH].
  - cbn [includes]. rewrite orb_false_r, startsWith_spec. split.
    + intros [rest E]. exists "", rest. exact E.
    + intros [[|c before] [after E]]; simpl in E.
      * exists after; exact E.
      * discriminate.
  - cbn [includes]. rewrite orb_true_iff, startsWith_spec, IH. split.
    + intros [[rest E] | [before [after E]]].
      * exists "", rest. exact E.
      * exists (String a before), after. simpl. now rewrite E.
    + intros [[|c before] [after E]]; simpl in E.
      * left. exists after; exact E.
      * right. injection E as -> E. exists before, after; exact E.
Qed.

Lemma includes_empty (s : string) : includes s "" = true.
Proof. destruct s; reflexivity. Qed.

(** ** Lists *)

Lemma filter_Subsequence {A : Type} (f : A -> bool) (l : list A) :
  Subsequence (filter f l) l.
Proof.
  induction l as [|x l IH]; simpl.
  - constructor.
  - destruct (f x); constructor; exact IH.
Qed.

Lemma Subsequence_In {A : Type} (l1 l2 : list A) :
  Subsequence l1 l2 -> forall x, In x l1 -> In x l2.
Proof.
  induction 1 as [|y l1 l2 _ IH|y l1 l2 _ IH]; simpl; intros x Hx.
  - exact Hx.
  - destruct Hx as [E|Hx]; [left; exact E | right; apply IH, Hx].
  - right; apply IH, Hx.
Qed.

Lemma Subsequence_count (l1 l2 : list User) :
  Subsequence l1 l2 ->
  forall u, count_occ User_eq_dec l1 u <= count_occ User_eq_dec l2 u.
Proof.
  induction 1 as [|y l1 l2 _ IH|y l1 l2 _ IH]; intros u; simpl.
  - lia.
  - destruct (User_eq_dec y u); specialize (IH u); lia.
  - destruct (User_eq_dec y u); specialize (IH u); lia.
Qed.

Lemma filter_idempotent {A : Type} (f : A -> bool) (l : list A) :
  filter f (filter f l) = filter f l.
Proof.
  induction l as [|x l IH]; simpl; [reflexivity|].
  destruct (f x) eqn:E; simpl; [rewrite E, IH; reflexivity | exact IH].
Qed.

Lemma filter_all {A : Type} (f : A -> bool) (l : list A) :
  (forall x, f x = true) -> filter f l = l.
Proof.
  intros Hf; induction l as [|x l IH]; simpl; [reflexivity|].
  rewrite Hf, IH; reflexivity.
Qed.

Lemma filter_none {A : Type} (f : A -> bool) (l : list A) :
  (forall x, f x = false) -> filter f l = [].
Proof.
  intros Hf; induction l as [|x l IH]; simpl; [reflexivity|].
  rewrite Hf; exact IH.
Qed.

(** ** The filter predicate, clause by clause *)

Section FilterFacts.
Context `{CaseMapping}.

Lemma matchesSearch_spec (searchTerm : string) (user : User) :
  matchesSearch searchTerm user = true <->
  ContainsIgnoringCase (username user) searchTerm \/
  ContainsIgnoringCase (email user) searchTerm.
Proof.
  unfold matchesSearch, ContainsIgnoringCase.
  rewrite orb_true_iff, !includes_spec. reflexivity.
Qed.

Lemma matchesRole_spec (filterRole : string) (user : User) :
  matchesRole filterRole user = true <->
  filterRole = "" \/ role user = filterRole.
Proof.
  unfold matchesRole. rewrite orb_true_iff, !String.eqb_eq. reflexivity.
Qed.

Lemma matchesStatus_spec (filterStatus : string) :
  matchesStatus filterStatus = true <->
  filterStatus = "" \/ filterStatus = "active".
Proof.
  unfold matchesStatus. rewrite orb_true_iff, !String.eqb_eq. reflexivity.
Qed.

Lemma matches_spec (searchTerm filterRole filterStatus : string) (user : User) :
  matches searchTerm filterRole filterStatus user = true <->
  (ContainsIgnoringCase (username user) searchTerm \/
   ContainsIgnoringCase (email user) searchTerm) /\
  (filterRole = "" \/ role user = filterRole) /\
  (filterStatus = "" \/ filterStatus = "active").
Proof.
  unfold matches.
  rewrite !andb_true_iff, matchesSearch_spec, matchesRole_spec,
    matchesStatus_spec.
  tauto.
Qed.

Lemma matches_status_irrelevant (searchTerm filterRole filterStatus : string)
    (user : User) :
  matchesStatus filterStatus = true ->
  matches searchTerm filterRole filterStatus user =
  matches searchTerm filterRole "" user.
Proof.
  intros E. unfold matches. rewrite E. reflexivity.
Qed.

End FilterFacts.

(** ** Properties of the filtered projection *)

(** C1. For every state of the cells (every user list and every criteria),
    the list stored by the filter effect holds exactly the records [R] of
    the user list such that the username or the email of [R] contains the
    search text when case is ignored, and the role filter is empty or is
    the role of [R], and the status filter is empty or is the word
    active. *)
Theorem filteredUsers_exactly_matching `{CaseMapping} (s : State) (R : User) :
  In R (filteredUsers (filterEffect s)) <->
  In R (users s) /\
  (ContainsIgnoringCase (username R) (searchTerm s) \/
   ContainsIgnoringCase (email R) (searchTerm s)) /\
  (filterRole s = "" \/ role R = filterRole s) /\
  (filterStatus s = "" \/ filterStatus s = "active").
Proof.
  unfold filterEffect, filtered; cbn [filteredUsers setFilteredUsers].
  rewrite filter_In, matches_spec. reflexivity.
Qed.

(** C2, as amended.  The status filter does not look at the records: with
    the empty value or the value active the filtered list is the one
    obtained with no status filter, and with any other value it is
    empty. *)
Theorem status_filter_effect `{CaseMapping} (users : list User)
    (searchTerm filterRole filterStatus : string) :
  (filterStatus = "" \/ filterStatus = "active" ->
   filtered users searchTerm filterRole filterStatus =
   filtered users searchTerm filterRole "") /\
  (filterStatus <> "" -> filterStatus <> "active" ->
   filtered users searchTerm filterRole filterStatus = []).
Proof.
  unfold filtered; split.
  - intros Hs. apply matchesStatus_spec in Hs.
    apply filter_ext; intros u. now apply matches_status_irrelevant.
  - intros H1 H2. apply filter_none; intros u.
    unfold matches, matchesStatus.
    apply String.eqb_neq in H1, H2. rewrite H1, H2.
    now rewrite andb_false_r.
Qed.

Lemma status_filter_effect_witness :
  filtered [alice; bob] "ali" "" "active" = filtered [alice; bob] "ali" "" "" /\
  filtered [alice; bob] "ali" "" "blocked" = [].
Proof.
  split.
  - apply (proj1 (status_filter_effect [alice; bob] "ali" "" "active")).
    right; reflexivity.
  - apply (proj2 (status_filter_effect [alice; bob] "ali" "" "blocked"));
      discriminate.
Defined.

(** C2, as stated, fails: on the list of alice and bob, with no search text
    and no role filter, the empty status value keeps both records and the
    value blocked keeps none. *)
Lemma status_filter_changes_result :
  filtered [alice; bob] "" "" "" = [alice; bob] /\
  filtered [alice; bob] "" "" "blocked" = [] /\
  filtered [alice; bob] "" "" "blocked" <> filtered [alice; bob] "" "" "".
Proof. repeat split. discriminate. Qed.

(** C3. Filtering is idempotent: filtering the filtered list again with the
    same criteria gives the filtered list. *)
Theorem filtered_idempotent `{CaseMapping} (users : list User)
    (searchTerm filterRole filterStatus : string) :
  filtered (filtered users searchTerm filterRole filterStatus)
    searchTerm filterRole filterStatus =
  filtered users searchTerm filterRole filterStatus.
Proof. unfold filtered. apply filter_idempotent. Qed.

(** C9. Empty criteria are an identity: with the empty search text, the
    empty role filter and the empty status filter every record matches and
    the filtered list is the source list. *)
Theorem filtered_empty_criteria `{CaseMapping} (users : list User) :
  (forall user : User, matches "" "" "" user = true) /\
  filtered users "" "" "" = users.
Proof.
  assert (Hall : forall user : User, matches "" "" "" user = true).
  { intros user. unfold matches, matchesSearch, matchesRole, matchesStatus.
    rewrite toLowerCase_empty, !includes_empty. reflexivity. }
  split; [exact Hall | apply filter_all, Hall].
Qed.

(** C10. The filtered list is a subsequence of the source list: it is
    obtained by dropping entries, so every filtered record occurs in the
    source, no record occurs more often than in the source, and the
    relative order is kept. *)
Theorem filtered_subsequence `{CaseMapping} (users : list User)
    (searchTerm filterRole filterStatus : string) :
  let result := filtered users searchTerm filterRole filterStatus in
  Subsequence result users /\
  (forall R : User, In R result -> In R users) /\
  (forall R : User,
     count_occ User_eq_dec result R <= count_occ User_eq_dec users R).
Proof.
  intros result.
  assert (Hsub : Subsequence result users) by apply filter_Subsequence.
  split; [exact Hsub | split].
  - apply Subsequence_In, Hsub.
  - apply Subsequence_count, Hsub.
Qed.

(** ** The scenario, run *)

Example loaded_users : users loaded = [alice; bob] /\ isLoading loaded = false.
Proof. split; reflexivity. Qed.

Example search_ali : filtered [alice; bob] "ali" "" "" = [alice].
Proof. reflexivity. Qed.

Example search_mixed_case :
  filtered [alice; bob] "EXAMPLE.ORG" "" "" = [alice; bob].
Proof. reflexivity. Qed.

Example role_user : filtered [alice; bob] "" "user" "" = [bob].
Proof. reflexivity. Qed.

Example save_bob_as_moderator :
  users (dispatch handleSaveChanges healthy editingBob) =
  [alice; mkUser "u-2" "bob" "Bob@Example.org" "moderator" "2024-01-15T09:30:00Z"].
Proof. reflexivity. Qed.

Example save_bob_requests :
  sent (exec (handleSaveChanges editingBob) healthy editingBob) =
  [AuthUpdateUserById "u-2" "Bob@Example.org" "bob";
   UsersUpdate "u-2" (mkEditForm "bob" "Bob@Example.org" "moderator")].
Proof. reflexivity. Qed.

Example save_bob_identity_down :
  sent (exec (handleSaveChanges editingBob) identityDown editingBob) =
  [AuthUpdateUserById "u-2" "Bob@Example.org" "bob"] /\
  users (dispatch handleSaveChanges identityDown editingBob) = [alice; bob].
Proof. split; reflexivity. Qed.

Example delete_alice :
  users (dispatch (fun view => deleteUser view alice) healthy loaded) = [bob].
Proof. reflexivity. Qed.

(** ** Helper facts for the handlers *)

Lemma append_empty_r (s : string) : (s ++ "")%string = s.
Proof. induction s as [|a s IH]; simpl; [reflexivity | now rewrite IH]. Qed.

Lemma Contains_suffix (prefix s : string) : Contains (prefix ++ s) s.
Proof. exists prefix, "". now rewrite append_empty_r. Qed.

Lemma filter_other_ids (uid : string) (l : list User) :
  ~ In uid (ids l) -> filter (fun u => negb (id u =? uid)) l = l.
Proof.
  induction l as [|u l IH]; simpl; intros Hnot; [reflexivity|].
  destruct (String.eqb_spec (id u) uid) as [E|_]; simpl.
  - exfalso; apply Hnot; left; exact E.
  - rewrite IH; [reflexivity | intros Hin; apply Hnot; right; exact Hin].
Qed.

Lemma filter_not_id (uid : string) (l : list User) :
  ~ In uid (ids (filter (fun u => negb (id u =? uid)) l)).
Proof.
  unfold ids. rewrite in_map_iff. intros [u [E Hu]].
  apply filter_In in Hu as [_ Hu]. rewrite E, String.eqb_refl in Hu.
  discriminate.
Qed.

Lemma Subsequence_middle {A : Type} (before after : list A) (x : A) :
  Subsequence (before ++ after) (before ++ x :: after).
Proof.
  induction before as [|y before IH]; simpl.
  - constructor. induction after; constructor; assumption.
  - constructor; exact IH.
Qed.

(** The save handler, case by case on the two answers. *)
Lemma handleSaveChanges_run (svc : Service) (s : State) (selected : User) :
  selectedUser s = Some selected ->
  let form := editForm s in
  let identity := AuthUpdateUserById (id selected) (form_email form)
                    (form_username form) in
  let profile := UsersUpdate (id selected) form in
  exec (handleSaveChanges s) svc s =
  match auth_updateUserById svc (id selected) (form_email form)
          (form_username form) with
  | Some authError =>
      mkWorld (setError (Some (updateFailedPrefix ++ message authError)%string) s)
        [identity]
  | None =>
      match users_update svc (id selected) form with
      | Some dbError =>
          mkWorld (setError (Some (updateFailedPrefix ++ message dbError)%string) s)
            [identity; profile]
      | None =>
          mkWorld
            (setIsModalOpen false
               (setUsers
                  (map (fun user =>
                          if id user =? id selected then spread user form
                          else user)
                       (users s)) s))
            [identity; profile]
      end
  end.
Proof.
  intros Hsel. unfold exec, handleSaveChanges. rewrite Hsel.
  cbv [tryCatch bind await throwIf set ret throw snd cells sent app].
  destruct (auth_updateUserById svc _ _ _); [reflexivity|].
  destruct (users_update svc _ _); reflexivity.
Qed.

(** The delete handler once the user has confirmed. *)
Lemma deleteUser_run (svc : Service) (s : State) (user : User) :
  window_confirm svc confirmDeleteQuestion = true ->
  exec (deleteUser s user) svc s =
  match auth_deleteUser svc (id user) with
  | Some authError =>
      mkWorld (setError (Some (deleteFailedPrefix ++ message authError)%string) s)
        [AuthDeleteUser (id user)]
  | None =>
      match users_delete svc (id user) with
      | Some dbError =>
          mkWorld (setError (Some (deleteFailedPrefix ++ message dbError)%string) s)
            [AuthDeleteUser (id user); UsersDelete (id user)]
      | None =>
          mkWorld
            (setUsers (filter (fun u => negb (id u =? id user)) (users s)) s)
            [AuthDeleteUser (id user); UsersDelete (id user)]
      end
  end.
Proof.
  intros Hok. unfold exec, deleteUser.
  cbv [tryCatch bind await throwIf set ret throw snd cells sent app confirm].
  rewrite Hok. cbn [negb].
  destruct (auth_deleteUser svc _); [reflexivity|].
  destruct (users_delete svc _); reflexivity.
Qed.

(** ** Saving an edit *)

(** C4. When the identity store answers the update with an error, or the
    identity store accepts it and the profile store answers with an error,
    the save stops there: the banner receives a message that contains the
    failure's message, no cell but the banner is written, so the user list
    (and every record in it) is the one before the save, also after the
    following render, and no request follows the failed one. *)
Theorem save_failure_keeps_users `{CaseMapping} (svc : Service) (s : State)
    (selected : User) (failure : ApiError) :
  selectedUser s = Some selected ->
  let form := editForm s in
  let authAnswer :=
    auth_updateUserById svc (id selected) (form_email form)
      (form_username form) in
  let identity :=
    AuthUpdateUserById (id selected) (form_email form) (form_username form) in
  authAnswer = Some failure \/
  (authAnswer = None /\ users_update svc (id selected) form = Some failure) ->
  let w := exec (handleSaveChanges s) svc s in
  users (cells w) = users s /\
  (exists text : string,
     error (cells w) = Some text /\ Contains text (message failure) /\
     cells w = setError (Some text) s) /\
  isModalOpen (cells w) = isModalOpen s /\
  users (dispatch handleSaveChanges svc s) = users s /\
  sent w =
    match authAnswer with
    | Some _ => [identity]
    | None => [identity; UsersUpdate (id selected) form]
    end.
Proof.
  intros Hsel form authAnswer identity Hfail w.
  unfold dispatch. subst w. rewrite (handleSaveChanges_run svc s selected Hsel).
  fold form. fold authAnswer.
  destruct Hfail as [Ha | [Ha Hd]]; rewrite Ha; [|rewrite Hd];
    cbn [cells sent];
    (repeat split;
     [ exists (updateFailedPrefix ++ message failure)%string;
       repeat split; apply Contains_suffix ]).
Qed.

Lemma save_failure_keeps_users_witness :
  users (cells (exec (handleSaveChanges editingBob) profileDown editingBob)) =
  [alice; bob].
Proof.
  apply (save_failure_keeps_users profileDown editingBob bob requestTimeout).
  - reflexivity.
  - right; split; reflexivity.
Defined.

(** C5. When both stores accept the update, the user list is patched in
    place: at every position, a record whose id is the selected record's
    id gets the draft's username, email and role and keeps its id and its
    created_at, and a record with another id is kept as it is; the list has
    the same length and the same ids in the same order.  The modal is
    closed and no other cell changes. *)
Theorem save_success_patches_selected (svc : Service) (s : State)
    (selected : User) :
  selectedUser s = Some selected ->
  let form := editForm s in
  auth_updateUserById svc (id selected) (form_email form) (form_username form)
    = None ->
  users_update svc (id selected) form = None ->
  let s' := cells (exec (handleSaveChanges s) svc s) in
  length (users s') = length (users s) /\
  (forall (i : nat) (user : User),
     nth_error (users s) i = Some user ->
     nth_error (users s') i =
     Some (if id user =? id selected
           then {| id := id user;
                   username := form_username form;
                   email := form_email form;
                   role := form_role form;
                   created_at := created_at user |}
           else user)) /\
  ids (users s') = ids (users s) /\
  s' = setIsModalOpen false (setUsers (users s') s).
Proof.
  intros Hsel form Ha Hd s'. subst s'.
  rewrite (handleSaveChanges_run svc s selected Hsel).
  fold form. rewrite Ha, Hd. cbn [cells users setIsModalOpen setUsers].
  split; [apply length_map | split; [|split]].
  - intros i user Hi. rewrite nth_error_map, Hi. reflexivity.
  - unfold ids. rewrite map_map. apply map_ext; intros user.
    destruct (id user =? id selected); reflexivity.
  - reflexivity.
Qed.

Lemma save_success_patches_selected_witness :
  nth_error
    (users (cells (exec (handleSaveChanges editingBob) healthy editingBob))) 1 =
  Some (mkUser "u-2" "bob" "Bob@Example.org" "moderator" "2024-01-15T09:30:00Z").
Proof.
  apply (proj1 (proj2
    (save_success_patches_selected healthy editingBob bob
       eq_refl eq_refl eq_refl)) 1 bob).
  reflexivity.
Defined.

(** ** Deleting a record *)

(** C6, as amended.  When the user confirms and both stores accept the
    deletion of a record of the list, and the ids of the list are pairwise
    distinct, the list afterwards is the list before with exactly one entry
    taken out, the deleted record: the entries before it and the entries
    after it follow each other in their former order, and no entry with the
    deleted id is left. *)
Theorem delete_success_removes_one (svc : Service) (s : State) (user : User) :
  window_confirm svc confirmDeleteQuestion = true ->
  auth_deleteUser svc (id user) = None ->
  users_delete svc (id user) = None ->
  In user (users s) ->
  NoDup (ids (users s)) ->
  let s' := cells (exec (deleteUser s user) svc s) in
  (exists before after : list User,
     users s = before ++ user :: after /\ users s' = before ++ after) /\
  S (length (users s')) = length (users s) /\
  ~ In (id user) (ids (users s')) /\
  Subsequence (users s') (users s) /\
  s' = setUsers (users s') s.
Proof.
  intros Hok Ha Hd Hin Hnodup s'. subst s'.
  rewrite (deleteUser_run svc s user Hok), Ha, Hd.
  cbn [cells users setUsers].
  destruct (in_split _ _ Hin) as [before [after Hsplit]].
  assert (Hdel : filter (fun u => negb (id u =? id user)) (users s) =
                 before ++ after).
  { rewrite Hsplit in Hnodup |- *. unfold ids in Hnodup.
    rewrite map_app in Hnodup. cbn [map] in Hnodup.
    apply NoDup_remove_2 in Hnodup.
    rewrite filter_app. cbn [filter]. rewrite String.eqb_refl. cbn [negb].
    rewrite !filter_other_ids; [reflexivity | |];
      intros Hbad; apply Hnodup, in_or_app; [right | left]; exact Hbad. }
  rewrite Hdel. repeat split.
  - exists before, after. split; [exact Hsplit | reflexivity].
  - rewrite Hsplit, !length_app. cbn [length]. lia.
  - rewrite <- Hdel. apply filter_not_id.
  - rewrite Hsplit. apply Subsequence_middle.
Qed.

Lemma delete_success_removes_one_witness :
  exists before after : list User,
    users loaded = before ++ alice :: after /\
    users (cells (exec (deleteUser loaded alice) healthy loaded)) =
    before ++ after.
Proof.
  apply (delete_success_removes_one healthy loaded alice);
    try reflexivity.
  - left; reflexivity.
  - repeat constructor; simpl; intuition discriminate.
Defined.

(** C6, as stated, fails: the handler keeps the entries whose id differs
    from the deleted one, so on a list where a second row carries alice's
    id a confirmed, accepted deletion of alice takes out two entries and
    leaves bob alone. *)
Lemma delete_with_repeated_id_removes_two :
  users loadedRepeated = [alice; bob; aliceTwin] /\
  users (cells (exec (deleteUser loadedRepeated alice) repeatedIds loadedRepeated)) =
  [bob] /\
  S (length
       (users
          (cells (exec (deleteUser loadedRepeated alice) repeatedIds loadedRepeated)))) <>
  length (users loadedRepeated).
Proof. repeat split. discriminate. Qed.

(** ** Loading *)

(** C7. When the query for the users answers with an error (with or
    without rows next to it), the page after mounting shows the error
    banner, is no longer loading, and holds an empty user list and an empty
    filtered list: the table region shows the empty-state message and no
    row. *)
Theorem fetch_failure_shows_no_rows `{CaseMapping} (svc : Service)
    (failure : ApiError) :
  fetch_error (select_users svc) = Some failure ->
  let s := mount svc in
  error s = Some fetchFailedMessage /\
  isLoading s = false /\
  users s = [] /\
  filteredUsers s = [] /\
  banner (renderPage s) = Some fetchFailedMessage /\
  content (renderPage s) = NoUsersFound /\
  sent (exec fetchUsers svc (filterEffect initialState)) = [SelectUsers].
Proof.
  intros Hfail s. subst s. unfold mount, exec, fetchUsers.
  cbv [tryFinally tryCatch bind await set ret snd cells sent app].
  rewrite Hfail. repeat split.
Qed.

Lemma fetch_failure_shows_no_rows_witness :
  users (mount identityDown) = [] /\
  content (renderPage (mount identityDown)) = NoUsersFound.
Proof.
  pose proof (fetch_failure_shows_no_rows identityDown requestTimeout eq_refl)
    as Hmount.
  split; apply Hmount.
Defined.

(** ** Access control *)

(** C8. When the session has no user, or its user's role is not admin, the
    component returns the redirect to the root route and registers no
    effect: what it returns is no page, so nothing of the fetch, the table
    or the modal is shown. *)
Theorem non_admin_is_redirected (user : option User) (s : State) :
  user = None \/ (exists u : User, user = Some u /\ role u <> "admin") ->
  AdminUsersPage user s = (Navigate "/", []) /\
  (forall page : Page, fst (AdminUsersPage user s) <> Layout page).
Proof.
  intros Hno.
  assert (E : AdminUsersPage user s = (Navigate "/", [])).
  { unfold AdminUsersPage. destruct Hno as [-> | [u [-> Hrole]]].
    - reflexivity.
    - apply String.eqb_neq in Hrole. rewrite Hrole. reflexivity. }
  split; [exact E | intros page; rewrite E; discriminate].
Qed.

Lemma non_admin_is_redirected_witness :
  AdminUsersPage (Some bob) loaded = (Navigate "/", []) /\
  AdminUsersPage None loaded = (Navigate "/", []).
Proof.
  split.
  - apply (non_admin_is_redirected (Some bob) loaded).
    right; exists bob; split; [reflexivity | discriminate].
  - apply (non_admin_is_redirected None loaded). left; reflexivity.
Defined.

Example admin_sees_the_table :
  fst (AdminUsersPage (Some alice) loaded) =
  Layout
    {| banner := None;
       searchBox := "";
       filterPanel := None;
       content := Table [renderRow alice; renderRow bob];
       modal := None |}.
Proof. reflexivity. Qed.

(** ** Further helper facts *)

Lemma Subsequence_refl {A : Type} (l : list A) : Subsequence l l.
Proof. induction l; constructor; assumption. Qed.

Lemma Subsequence_map {A B : Type} (f : A -> B) (l1 l2 : list A) :
  Subsequence l1 l2 -> Subsequence (map f l1) (map f l2).
Proof. induction 1; simpl; constructor; assumption. Qed.

Lemma Subsequence_NoDup {A : Type} (l1 l2 : list A) :
  Subsequence l1 l2 -> NoDup l2 -> NoDup l1.
Proof.
  induction 1 as [|x l1 l2 Hsub IH|x l1 l2 Hsub IH]; intros Hnd.
  - exact Hnd.
  - inversion Hnd as [|? ? Hx Hl2]; subst. constructor.
    + intros Hin. apply Hx. exact (Subsequence_In _ _ Hsub x Hin).
    + apply IH, Hl2.
  - inversion Hnd; subst. apply IH; assumption.
Qed.

Lemma filter_implied_Subsequence {A : Type} (f g : A -> bool) (l : list A) :
  (forall x, f x = true -> g x = true) ->
  Subsequence (filter f l) (filter g l).
Proof.
  intros Himp. induction l as [|x l IH]; simpl; [constructor|].
  destruct (f x) eqn:Ef.
  - rewrite (Himp x Ef). constructor; exact IH.
  - destruct (g x); [constructor|]; exact IH.
Qed.

Lemma unique_id_determines (l : list User) (u v : User) :
  NoDup (ids l) -> In u l -> In v l -> id u = id v -> u = v.
Proof.
  unfold ids. induction l as [|w l IH]; simpl; intros Hnd Hu Hv E; [tauto|].
  inversion Hnd as [|? ? Hw Hl]; subst.
  destruct Hu as [->|Hu], Hv as [->|Hv].
  - reflexivity.
  - exfalso; apply Hw. rewrite E. apply in_map, Hv.
  - exfalso; apply Hw. rewrite <- E. apply in_map, Hu.
  - apply IH; assumption.
Qed.

Lemma includes_refl (s : string) : includes s s = true.
Proof.
  apply includes_spec. exists "", "". simpl. now rewrite append_empty_r.
Qed.

Lemma matches_no_criteria `{CaseMapping} (user : User) :
  matches "" "" "" user = true.
Proof.
  unfold matches, matchesSearch, matchesRole, matchesStatus.
  rewrite toLowerCase_empty, !includes_empty. reflexivity.
Qed.

(** The fetch, case by case on the answer of the query. *)
Lemma fetchUsers_run (svc : Service) (s : State) :
  exec fetchUsers svc s =
  mkWorld
    (match fetch_error (select_users svc), data (select_users svc) with
     | Some _, _ =>
         setIsLoading false (setError (Some fetchFailedMessage) s)
     | None, Some rows =>
         setIsLoading false
           (setFilteredUsers rows (setUsers rows (setError None s)))
     | None, None => setIsLoading false (setError None s)
     end)
    [SelectUsers].
Proof.
  unfold exec, fetchUsers.
  cbv [tryFinally tryCatch bind await throwIf set ret throw snd cells sent app].
  destruct (fetch_error (select_users svc)), (data (select_users svc));
    destruct s; reflexivity.
Qed.

(** The save handler when no record is selected. *)
Lemma handleSaveChanges_unselected (svc : Service) (s : State) :
  selectedUser s = None -> exec (handleSaveChanges s) svc s = mkWorld s [].
Proof.
  intros Hsel. unfold exec, handleSaveChanges. rewrite Hsel. reflexivity.
Qed.

(** The delete handler when the user declines. *)
Lemma deleteUser_declined (svc : Service) (s : State) (user : User) :
  window_confirm svc confirmDeleteQuestion = false ->
  exec (deleteUser s user) svc s = mkWorld s [].
Proof.
  intros Hno. unfold exec, deleteUser.
  cbv [bind confirm ret snd]. rewrite Hno. reflexivity.
Qed.

(** ** Loading, in every case *)

(** X1. When the query answers without an error, the page after mounting
    holds the rows of the answer, in the order of the answer, both as user
    list and as filtered list (no rows when the answer carries none); it is
    no longer loading, shows no banner, and shows one table row per record
    unless there is none. *)
Theorem fetch_success_populates `{CaseMapping} (svc : Service) :
  fetch_error (select_users svc) = None ->
  let rows :=
    match data (select_users svc) with
    | Some d => d
    | None => []
    end in
  let s := mount svc in
  users s = rows /\
  filteredUsers s = rows /\
  isLoading s = false /\
  error s = None /\
  content (renderPage s) =
    match rows with
    | [] => NoUsersFound
    | _ :: _ => Table (map renderRow rows)
    end.
Proof.
  intros Hok rows s. subst s rows. unfold mount.
  rewrite fetchUsers_run, Hok. cbn [cells].
  assert (Hall : forall l, filtered l "" "" "" = l).
  { intros l. apply filter_all. intros u. apply matches_no_criteria. }
  destruct (data (select_users svc)) as [d|];
    unfold filterEffect, renderPage;
    cbn -[filtered]; rewrite Hall; repeat split.
  destruct d; reflexivity.
Qed.

Lemma fetch_success_populates_witness :
  users (mount healthy) = [alice; bob] /\
  filteredUsers (mount healthy) = [alice; bob].
Proof.
  pose proof (fetch_success_populates healthy eq_refl) as Hmount.
  split; apply Hmount.
Defined.

(** X2. Whatever the query answers, mounting sends exactly that one query
    and ends with the loading flag cleared; the banner is shown exactly when
    the answer carries an error, and then it is the fixed message of the
    fetch. *)
Theorem mount_always_stops_loading `{CaseMapping} (svc : Service) :
  isLoading (mount svc) = false /\
  sent (exec fetchUsers svc (filterEffect initialState)) = [SelectUsers] /\
  (error (mount svc) = None <-> fetch_error (select_users svc) = None) /\
  (error (mount svc) <> None -> error (mount svc) = Some fetchFailedMessage) /\
  content (renderPage (mount svc)) <> LoadingIndicator.
Proof.
  unfold mount. rewrite fetchUsers_run. cbn [cells sent].
  destruct (fetch_error (select_users svc)) as [e|],
           (data (select_users svc)) as [d|];
    unfold filterEffect, renderPage; cbn -[filtered];
    (repeat split; try discriminate; try tauto).
  all: try (destruct (filtered _ _ _ _); cbn; discriminate).
Qed.

Lemma mount_always_stops_loading_witness :
  error (mount identityDown) = Some fetchFailedMessage.
Proof.
  apply (proj1 (proj2 (proj2 (proj2 (mount_always_stops_loading identityDown))))).
  discriminate.
Defined.

(** ** Guards of the handlers *)

(** X3. Without the user's confirmation the delete handler does nothing:
    no request is sent and every cell keeps its value. *)
Theorem delete_declined_is_noop (svc : Service) (s : State) (user : User) :
  window_confirm svc confirmDeleteQuestion = false ->
  sent (exec (deleteUser s user) svc s) = [] /\
  cells (exec (deleteUser s user) svc s) = s.
Proof.
  intros Hno. rewrite (deleteUser_declined svc s user Hno). split; reflexivity.
Qed.

Lemma delete_declined_is_noop_witness :
  cells (exec (deleteUser loaded alice) declining loaded) = loaded.
Proof.
  apply (delete_declined_is_noop declining loaded alice). reflexivity.
Defined.

(** X4. With no selected record the save handler does nothing: no request
    is sent and every cell keeps its value. *)
Theorem save_without_selection_is_noop (svc : Service) (s : State) :
  selectedUser s = None ->
  sent (exec (handleSaveChanges s) svc s) = [] /\
  cells (exec (handleSaveChanges s) svc s) = s.
Proof.
  intros Hsel. rewrite (handleSaveChanges_unselected svc s Hsel).
  split; reflexivity.
Qed.

Lemma save_without_selection_is_noop_witness :
  cells (exec (handleSaveChanges loaded) healthy loaded) = loaded.
Proof.
  apply (save_without_selection_is_noop healthy loaded). reflexivity.
Defined.

(** X5. When the identity store answers the deletion with an error, or
    accepts it and the profile store answers with an error, the handler
    stops there: the banner receives the deletion prefix followed by the
    failure's message, no other cell is written, so the record stays in the
    user list, and no request follows the failed one. *)
Theorem delete_failure_keeps_users (svc : Service) (s : State) (user : User)
    (failure : ApiError) :
  window_confirm svc confirmDeleteQuestion = true ->
  auth_deleteUser svc (id user) = Some failure \/
  (auth_deleteUser svc (id user) = None /\
   users_delete svc (id user) = Some failure) ->
  let w := exec (deleteUser s user) svc s in
  cells w =
    setError (Some (deleteFailedPrefix ++ message failure)%string) s /\
  users (cells w) = users s /\
  sent w =
    match auth_deleteUser svc (id user) with
    | Some _ => [AuthDeleteUser (id user)]
    | None => [AuthDeleteUser (id user); UsersDelete (id user)]
    end.
Proof.
  intros Hok Hfail w. subst w. rewrite (deleteUser_run svc s user Hok).
  destruct Hfail as [Ha | [Ha Hd]]; rewrite Ha; [|rewrite Hd];
    repeat split.
Qed.

Lemma delete_failure_keeps_users_witness :
  users (cells (exec (deleteUser loaded bob) profileDown loaded)) =
  [alice; bob].
Proof.
  apply (delete_failure_keeps_users profileDown loaded bob requestTimeout).
  - reflexivity.
  - right; split; reflexivity.
Defined.

(** ** The edit flow, end to end *)

(** The cells after a row's edit button has been pressed. *)
Lemma openEditModal_run (svc : Service) (s : State) (user : User) :
  exec (openEditModal user) svc s =
  mkWorld
    (setIsModalOpen true
       (setEditForm (mkEditForm (username user) (email user) (role user))
          (setSelectedUser (Some user) s)))
    [].
Proof. reflexivity. Qed.

(** X6. Opening the editor on a record of the list and saving at once is a
    round trip: whatever draft an earlier edit left behind, when both
    stores accept the update and the ids of the list are pairwise distinct,
    the user list after the save is the list before. *)
Theorem open_then_save_roundtrip (svc : Service) (s : State) (selected : User) :
  In selected (users s) ->
  NoDup (ids (users s)) ->
  auth_updateUserById svc (id selected) (email selected) (username selected)
    = None ->
  users_update svc (id selected)
    (mkEditForm (username selected) (email selected) (role selected)) = None ->
  let opened := cells (exec (openEditModal selected) svc s) in
  users (cells (exec (handleSaveChanges opened) svc opened)) = users s.
Proof.
  intros Hin Hnd Ha Hd opened. subst opened.
  rewrite openEditModal_run. cbn [cells].
  match goal with
  | |- context [exec (handleSaveChanges ?st) svc ?st] =>
      rewrite (handleSaveChanges_run svc st selected eq_refl)
  end.
  cbn [editForm setIsModalOpen setEditForm setSelectedUser form_email
       form_username users].
  rewrite Ha, Hd. cbn [cells users setIsModalOpen setUsers].
  rewrite <- (map_id (users s)) at 2. apply map_ext_in. intros u Hu.
  destruct (String.eqb_spec (id u) (id selected)) as [E|_]; [|reflexivity].
  rewrite (unique_id_determines (users s) u selected Hnd Hu Hin E).
  destruct selected; reflexivity.
Qed.

Lemma open_then_save_roundtrip_witness :
  users
    (cells
       (exec (handleSaveChanges (cells (exec (openEditModal bob) healthy editingBob)))
          healthy (cells (exec (openEditModal bob) healthy editingBob)))) =
  [alice; bob].
Proof.
  apply (open_then_save_roundtrip healthy editingBob bob); try reflexivity.
  - right; left; reflexivity.
  - repeat constructor; simpl; intuition discriminate.
Defined.

(** X7. Opening the editor on a record, choosing another role and saving
    changes the role and nothing else: when both stores accept the update,
    every record with the selected id gets the selected record's username
    and email and the chosen role and keeps its id and created_at, and
    every other record is kept. *)
Theorem change_role_then_save (svc : Service) (s : State) (selected : User)
    (newRole : string) :
  auth_updateUserById svc (id selected) (email selected) (username selected)
    = None ->
  users_update svc (id selected)
    (mkEditForm (username selected) (email selected) newRole) = None ->
  let opened := cells (exec (openEditModal selected) svc s) in
  let chosen := cells (exec (onRoleChange opened newRole) svc opened) in
  let saved := cells (exec (handleSaveChanges chosen) svc chosen) in
  (forall (i : nat) (user : User),
     nth_error (users s) i = Some user ->
     nth_error (users saved) i =
     Some (if id user =? id selected
           then {| id := id user;
                   username := username selected;
                   email := email selected;
                   role := newRole;
                   created_at := created_at user |}
           else user)) /\
  isModalOpen saved = false.
Proof.
  intros Ha Hd opened chosen saved. subst saved chosen opened.
  rewrite openEditModal_run. cbn [cells].
  change (exec (onRoleChange ?v newRole) svc ?st) with
    (mkWorld (setEditForm
                (mkEditForm (form_username (editForm v))
                   (form_email (editForm v)) newRole) st) []).
  cbn [cells].
  match goal with
  | |- context [exec (handleSaveChanges ?st) svc ?st] =>
      rewrite (handleSaveChanges_run svc st selected eq_refl)
  end.
  cbn [editForm setIsModalOpen setEditForm setSelectedUser form_email
       form_username users].
  rewrite Ha, Hd. cbn [cells users setIsModalOpen setUsers isModalOpen].
  split; [|reflexivity].
  intros i user Hi. rewrite nth_error_map, Hi. reflexivity.
Qed.

Lemma change_role_then_save_witness :
  nth_error
    (users (cells (exec (handleSaveChanges chosenModerator) healthy chosenModerator)))
    1 =
  Some (mkUser "u-2" "bob" "Bob@Example.org" "moderator" "2024-01-15T09:30:00Z").
Proof.
  apply (proj1 (change_role_then_save healthy loaded bob "moderator"
                  eq_refl eq_refl) 1 bob).
  reflexivity.
Defined.

(** ** The handlers and the identifiers *)

(** X8. Saving never changes which records the list holds: whatever the
    cells and whatever the stores answer (no selection, a failure of either
    store, or success), the list after the handler has the same ids in the
    same order, hence the same length, and ids that were pairwise distinct
    stay so. *)
Theorem save_preserves_ids (svc : Service) (s : State) :
  let s' := cells (exec (handleSaveChanges s) svc s) in
  ids (users s') = ids (users s) /\
  length (users s') = length (users s) /\
  (NoDup (ids (users s)) -> NoDup (ids (users s'))).
Proof.
  intros s'.
  assert (Hids : ids (users s') = ids (users s)).
  { subst s'. destruct (selectedUser s) as [selected|] eqn:Hsel.
    - rewrite (handleSaveChanges_run svc s selected Hsel).
      destruct (auth_updateUserById svc _ _ _); [reflexivity|].
      destruct (users_update svc _ _); [reflexivity|].
      cbn [cells users setIsModalOpen setUsers]. unfold ids.
      rewrite map_map. apply map_ext; intros user.
      destruct (id user =? id selected); reflexivity.
    - rewrite (handleSaveChanges_unselected svc s Hsel). reflexivity. }
  split; [exact Hids | split].
  - unfold ids in Hids. apply (f_equal (@length string)) in Hids.
    now rewrite !length_map in Hids.
  - rewrite Hids. tauto.
Qed.

Lemma save_preserves_ids_witness :
  NoDup (ids (users (cells (exec (handleSaveChanges editingBob) healthy editingBob)))).
Proof.
  apply (proj2 (proj2 (save_preserves_ids healthy editingBob))).
  repeat constructor; simpl; intuition discriminate.
Defined.

(** X9. Deleting never adds, changes or reorders a record: whatever the
    cells, the user's answer and the stores' answers, the list after the
    handler is a subsequence of the list before, and ids that were pairwise
    distinct stay so. *)
Theorem delete_only_removes (svc : Service) (s : State) (user : User) :
  let s' := cells (exec (deleteUser s user) svc s) in
  Subsequence (users s') (users s) /\
  length (users s') <= length (users s) /\
  (NoDup (ids (users s)) -> NoDup (ids (users s'))).
Proof.
  intros s'.
  assert (Hsub : Subsequence (users s') (users s)).
  { subst s'. destruct (window_confirm svc confirmDeleteQuestion) eqn:Hok.
    - rewrite (deleteUser_run svc s user Hok).
      destruct (auth_deleteUser svc _); [apply Subsequence_refl|].
      destruct (users_delete svc _); [apply Subsequence_refl|].
      apply filter_Subsequence.
    - rewrite (deleteUser_declined svc s user Hok). apply Subsequence_refl. }
  split; [exact Hsub | split].
  - clear - Hsub. induction Hsub; simpl; lia.
  - apply Subsequence_NoDup, Subsequence_map, Hsub.
Qed.

Lemma delete_only_removes_witness :
  NoDup (ids (users (cells (exec (deleteUser loaded alice) identityDown loaded)))).
Proof.
  apply (proj2 (proj2 (delete_only_removes identityDown loaded alice))).
  repeat constructor; simpl; intuition discriminate.
Defined.

(** X10. When the user confirms and both stores accept, the delete handler
    takes out every entry that carries the deleted id and no other entry,
    whether or not ids repeat: a record is in the list afterwards exactly
    when it was in the list and has another id.  If no entry carries the
    id, the list is unchanged. *)
Theorem delete_success_removes_matching_ids (svc : Service) (s : State)
    (user : User) :
  window_confirm svc confirmDeleteQuestion = true ->
  auth_deleteUser svc (id user) = None ->
  users_delete svc (id user) = None ->
  let s' := cells (exec (deleteUser s user) svc s) in
  (forall R : User, In R (users s') <-> In R (users s) /\ id R <> id user) /\
  (~ In (id user) (ids (users s)) -> users s' = users s).
Proof.
  intros Hok Ha Hd s'. subst s'.
  rewrite (deleteUser_run svc s user Hok), Ha, Hd.
  cbn [cells users setUsers]. split.
  - intros R. rewrite filter_In, negb_true_iff, String.eqb_neq. reflexivity.
  - apply filter_other_ids.
Qed.

Lemma delete_success_removes_matching_ids_witness :
  users
    (cells
       (exec (deleteUser loaded (mkUser "u-9" "carol" "carol@example.org" "user" ""))
          healthy loaded)) =
  users loaded.
Proof.
  apply (delete_success_removes_matching_ids healthy loaded
           (mkUser "u-9" "carol" "carol@example.org" "user" "")
           eq_refl eq_refl eq_refl).
  simpl; intuition discriminate.
Defined.

(** ** Edits and the filtered view *)

(** X11. A record saved with a role that the active role filter does not
    select leaves the table: when both stores accept the update, the role
    filter is not empty and differs from the draft's role, no record with
    the selected id is in the filtered list of the next render. *)
Theorem saved_role_leaves_role_filter `{CaseMapping} (svc : Service)
    (s : State) (selected : User) :
  selectedUser s = Some selected ->
  let form := editForm s in
  auth_updateUserById svc (id selected) (form_email form) (form_username form)
    = None ->
  users_update svc (id selected) form = None ->
  filterRole s <> "" ->
  form_role form <> filterRole s ->
  forall R : User,
    In R (filteredUsers (dispatch handleSaveChanges svc s)) ->
    id R <> id selected.
Proof.
  intros Hsel form Ha Hd Hset Hrole R. unfold dispatch.
  rewrite (handleSaveChanges_run svc s selected Hsel). fold form.
  rewrite Ha, Hd. unfold filterEffect, filtered.
  cbn [cells users filteredUsers searchTerm filterRole filterStatus
       setIsModalOpen setUsers setFilteredUsers].
  rewrite filter_In, in_map_iff, matches_spec.
  intros [[u [HR _]] [_ [[Hempty | HroleR] _]]] Hid; [contradiction|].
  destruct (String.eqb_spec (id u) (id selected)) as [_|Hne]; subst R.
  - apply Hrole. exact HroleR.
  - apply Hne. exact Hid.
Qed.

Lemma saved_role_leaves_role_filter_witness :
  Forall (fun R : User => id R <> "u-2")
    (filteredUsers
       (dispatch handleSaveChanges healthy
          (setFilterRole "user" chosenModerator))).
Proof.
  apply Forall_forall.
  apply (saved_role_leaves_role_filter healthy
           (setFilterRole "user" chosenModerator) bob
           eq_refl eq_refl eq_refl);
    discriminate.
Defined.

(** ** Narrowing and widening the view *)

Lemma filtered_narrows `{CaseMapping} (users : list User)
    (searchTerm filterRole filterStatus : string) :
  Subsequence (filtered users searchTerm filterRole filterStatus)
    (filtered users searchTerm "" "").
Proof.
  unfold filtered. apply filter_implied_Subsequence. intros u.
  unfold matches. intros Hm.
  apply andb_true_iff in Hm as [Hm _]. apply andb_true_iff in Hm as [Hsearch _].
  rewrite Hsearch. reflexivity.
Qed.

Lemma filtered_In `{CaseMapping} (users : list User)
    (searchTerm filterRole filterStatus : string) (R : User) :
  In R (filtered users searchTerm filterRole filterStatus) <->
  In R users /\ matches searchTerm filterRole filterStatus R = true.
Proof. unfold filtered. apply filter_In. Qed.

(** X12. A role filter and a status filter only take rows away: for every
    list and search text, the list filtered with any role and status values
    is a subsequence of the list filtered by the search text alone, so it
    is never longer. *)
Theorem filters_only_narrow `{CaseMapping} (users : list User)
    (searchTerm filterRole filterStatus : string) :
  Subsequence (filtered users searchTerm filterRole filterStatus)
    (filtered users searchTerm "" "") /\
  length (filtered users searchTerm filterRole filterStatus) <=
  length (filtered users searchTerm "" "").
Proof.
  pose proof (filtered_narrows users searchTerm filterRole filterStatus)
    as Hsub.
  split; [exact Hsub|]. induction Hsub; simpl; lia.
Qed.

(** X13. A record of the list is always found by its own username and by
    its own email, also under the narrowest filters that fit it: its own
    role as role filter and the status active. *)
Theorem found_by_own_username_or_email `{CaseMapping} (users : list User)
    (user : User) :
  In user users ->
  In user (filtered users (username user) (role user) "active") /\
  In user (filtered users (email user) (role user) "active") /\
  In user (filtered users (username user) "" "") /\
  In user (filtered users (email user) "" "").
Proof.
  intros Hin.
  split; [|split; [|split]]; apply filtered_In; (split; [exact Hin|]);
    unfold matches, matchesSearch, matchesRole, matchesStatus;
    rewrite ?includes_refl, ?String.eqb_refl, ?orb_true_r; reflexivity.
Qed.

Lemma found_by_own_username_or_email_witness :
  In bob (filtered [alice; bob] "bob" "user" "active").
Proof.
  exact (proj1 (found_by_own_username_or_email [alice; bob] bob
                  (or_intror (or_introl eq_refl)))).
Defined.

(** X14. The reset button empties the role and the status filter and keeps
    the search text and the user list: the filtered list of the next render
    holds exactly the records that match the search text, and every row
    shown before the reset is still shown, in the same order. *)
Theorem reset_filters_keeps_search `{CaseMapping} (svc : Service) (s : State) :
  let s' := dispatch (fun _ => resetFilters) svc s in
  filterRole s' = "" /\
  filterStatus s' = "" /\
  searchTerm s' = searchTerm s /\
  users s' = users s /\
  (forall R : User,
     In R (filteredUsers s') <->
     In R (users s) /\
     (ContainsIgnoringCase (username R) (searchTerm s) \/
      ContainsIgnoringCase (email R) (searchTerm s))) /\
  Subsequence (filteredUsers (filterEffect s)) (filteredUsers s').
Proof.
  intros s'. subst s'. unfold dispatch, filterEffect.
  change (cells (exec resetFilters svc s)) with
    (setFilterStatus "" (setFilterRole "" s)).
  cbn [filterRole filterStatus searchTerm users filteredUsers
       setFilterRole setFilterStatus setFilteredUsers].
  split; [reflexivity | split; [reflexivity | split; [reflexivity |
    split; [reflexivity | split]]]].
  - intros R. rewrite filtered_In, matches_spec. tauto.
  - apply filtered_narrows.
Qed.

(** ** What is rendered *)

(** X15. The region under the search bar: while loading it is the loading
    indicator, whatever the lists hold; otherwise it is the empty-state
    message exactly when the filtered list is empty; and a table, when
    shown, is never empty and has one row per filtered record, in the
    order of the filtered list, each with the badge of its record's role. *)
Theorem table_shows_filtered_rows (s : State) :
  (isLoading s = true -> content (renderPage s) = LoadingIndicator) /\
  (isLoading s = false ->
   (content (renderPage s) = NoUsersFound <-> filteredUsers s = [])) /\
  (forall rows : list Row,
     content (renderPage s) = Table rows ->
     isLoading s = false /\
     rows <> [] /\
     map row_user rows = filteredUsers s /\
     (forall row : Row,
        In row rows ->
        badge_text row = getRoleName (role (row_user row)) /\
        badge_color row = getRoleColor (role (row_user row)))).
Proof.
  unfold renderPage; cbn [content].
  split; [intros ->; reflexivity | split].
  - intros ->. destruct (filteredUsers s); cbn; split; congruence.
  - intros rows. destruct (isLoading s); [discriminate|].
    destruct (filteredUsers s) as [|u l] eqn:E; cbn; [discriminate|].
    intros Hrows. injection Hrows as <-.
    split; [reflexivity | split; [discriminate | split]].
    + cbn. f_equal. rewrite map_map. apply map_id.
    + intros row Hrow.
      change (renderRow u :: map renderRow l) with (map renderRow (u :: l))
        in Hrow.
      apply in_map_iff in Hrow as [v [<- _]]. split; reflexivity.
Qed.

Lemma table_shows_filtered_rows_witness :
  map row_user [renderRow alice; renderRow bob] = filteredUsers loaded.
Proof.
  exact (proj1 (proj2 (proj2
    (proj2 (proj2 (table_shows_filtered_rows loaded))
       [renderRow alice; renderRow bob] eq_refl)))).
Defined.

(** X16. The role badge: the label is the word for unknown exactly when
    the role is none of admin, moderator and user, the colour is the gray
    one in exactly the same case, and two roles have the same label
    exactly when they have the same colour. *)
Theorem role_badge_classes (r1 r2 : string) :
  (getRoleName r1 = "Неизвестно" <->
   r1 <> "admin" /\ r1 <> "moderator" /\ r1 <> "user") /\
  (getRoleColor r1 = "bg-gray-100 text-gray-800" <->
   r1 <> "admin" /\ r1 <> "moderator" /\ r1 <> "user") /\
  (getRoleName r1 = getRoleName r2 <-> getRoleColor r1 = getRoleColor r2).
Proof.
  unfold getRoleName, getRoleColor.
  destruct (String.eqb_spec r1 "admin") as [->|Ha1];
    [|destruct (String.eqb_spec r1 "moderator") as [->|Hm1];
      [|destruct (String.eqb_spec r1 "user") as [->|Hu1]]];
    (destruct (String.eqb_spec r2 "admin") as [->|Ha2];
     [|destruct (String.eqb_spec r2 "moderator") as [->|Hm2];
       [|destruct (String.eqb_spec r2 "user") as [->|Hu2]]]);
    cbn;
    (split; [|split]; split; intros Hx;
     try reflexivity; try discriminate Hx;
     try (repeat split; assumption);
     try (destruct Hx as [Hx1 [Hx2 Hx3]]; congruence)).
Qed.

(** X17. The access check lets exactly the administrators in: the
    component returns the page when, and only when, the session has a user
    whose role is admin, and it then registers both effects. *)
Theorem admin_gets_the_page (user : option User) (s : State) :
  ((exists page : Page, fst (AdminUsersPage user s) = Layout page) <->
   (exists u : User, user = Some u /\ role u = "admin")) /\
  ((exists u : User, user = Some u /\ role u = "admin") ->
   AdminUsersPage user s =
   (Layout (renderPage s), [FetchUsersOnMount; FilterOnChange])).
Proof.
  unfold AdminUsersPage. destruct user as [u|].
  - destruct (String.eqb_spec (role u) "admin") as [E|Hne]; cbn.
    + split; [split|]; intros _; eauto.
    + split; [split|].
      * intros [page Hpage]; discriminate.
      * intros [v [Hv Hrole]]. injection Hv as <-. contradiction.
      * intros [v [Hv Hrole]]. injection Hv as <-. contradiction.
  - cbn. split; [split|].
    + intros [page Hpage]; discriminate.
    + intros [v [Hv _]]; discriminate.
    + intros [v [Hv _]]; discriminate.
Qed.

Lemma admin_gets_the_page_witness :
  AdminUsersPage (Some alice) loaded =
  (Layout (renderPage loaded), [FetchUsersOnMount; FilterOnChange]).
Proof.
  apply (proj2 (admin_gets_the_page (Some alice) loaded)).
  exists alice; split; reflexivity.
Defined.
